(** * To-Do-ListAPI: the task resource and its five routes

    A shallow embedding of [To-Do-ListAPI.py].  The program is a FastAPI
    application over one SQLite table, [tasks], reached through a SQLAlchemy
    session.  The embedding has three layers, as the program has:

    - the table and the session primitives the handlers call
      ([query_first], [query_all], [commit], [refresh], [delete_commit]);
    - the handler functions [create_task], [read_tasks], [read_task],
      [update_task] and [delete_task], written in a state-and-exception
      monad over the table;
    - the routes ([POST_tasks], [GET_tasks], [GET_task], [PUT_task],
      [DELETE_task]): a handler run by the framework, its exceptions mapped
      to error responses and its result passed through the route's
      [response_model].

    Integers are [Z], as Python's are.  An integer that reaches SQLite as a
    statement parameter must be a signed 64-bit one: the driver raises
    [OverflowError] for any other, and the route answers 500. *)

From Stdlib Require Import ZArith List String Bool Lia Sorted.
Import ListNotations.
Local Open Scope string_scope.
Local Open Scope Z_scope.
Local Open Scope list_scope.

(** ** Data model *)

(** A stored row of table [tasks] (the columns of [class Task(Base)]):
    [id] is the INTEGER PRIMARY KEY, [title] is [nullable=False],
    [description] is [nullable=True], and [done] is a Boolean column with
    [default=False] and no [nullable=False], so that it admits NULL. *)
Module Row.
Record t := mk {
  id : Z;
  title : string;
  description : option string;
  done : option bool
}.
End Row.

(** The table, in scan order (rowid order). *)
Definition Table := list Row.t.

(** An instance of the mapped class [Task] as the handlers hold it: Python
    attributes, each of which may be [None] ([id] is [None] until the
    INSERT has run). *)
Module Task.
Record t := mk {
  id : option Z;
  title : option string;
  description : option string;
  done : option bool
}.
End Task.

(** [class TaskBase(BaseModel)] / [class TaskCreate(TaskBase)]: a validated
    create payload. *)
Module TaskCreate.
Record t := mk {
  title : string;
  description : option string;
  done : bool
}.

(** The model built from a request body: [title] is required, a field left
    out of the body takes its declared default ([description = None],
    [done = False]). *)
Definition parse (title : string) (description : option (option string))
           (done : option bool) : t :=
  mk title
     (match description with Some v => v | None => None end)
     (match done with Some b => b | None => false end).
End TaskCreate.

(** [class TaskUpdate(BaseModel)]: every field is [Optional[...] = None].
    For each field the outer option says whether the request set it (it is
    in the model's set of fields), the inner one is its value, [None] being
    an explicit JSON null. *)
Module TaskUpdate.
Record t := mk {
  title : option (option string);
  description : option (option string);
  done : option (option bool)
}.

(** The payload [{}]. *)
Definition empty : t := mk None None None.
End TaskUpdate.

(** [class TaskInDB(TaskBase)]: the response schema, [done: bool] and
    [title: str] are not optional. *)
Module TaskInDB.
Record t := mk {
  title : string;
  description : option string;
  done : bool;
  id : Z
}.
End TaskInDB.

(** One entry of [task.dict(exclude_unset=True)]: an attribute name with its
    new value. *)
Inductive item :=
| title_item (value : option string)
| description_item (value : option string)
| done_item (value : option bool).

(** [task.dict(exclude_unset=True)]: the fields the request set, in
    declaration order. *)
Definition dict_exclude_unset (task : TaskUpdate.t) : list item :=
  (match TaskUpdate.title task with Some v => [title_item v] | None => [] end) ++
  (match TaskUpdate.description task with Some v => [description_item v] | None => [] end) ++
  (match TaskUpdate.done task with Some v => [done_item v] | None => [] end).

(** [setattr(db_task, key, value)]. *)
Definition setattr (db_task : Task.t) (kv : item) : Task.t :=
  match kv with
  | title_item v =>
      Task.mk (Task.id db_task) v (Task.description db_task) (Task.done db_task)
  | description_item v =>
      Task.mk (Task.id db_task) (Task.title db_task) v (Task.done db_task)
  | done_item v =>
      Task.mk (Task.id db_task) (Task.title db_task) (Task.description db_task) v
  end.

(** ** Exceptions and the handler monad *)

Inductive exn :=
| HTTPException (status_code : Z) (detail : string)
| IntegrityError          (* NOT NULL constraint failed: tasks.title *)
| InvalidRequestError     (* the instance has no row *)
| OverflowError.          (* Python int too large to convert to SQLite INTEGER *)

Inductive result (A : Type) :=
| Return (a : A)
| Raise (e : exn).
Arguments Return {A} a.
Arguments Raise {A} e.

(** A computation run against the table of the request's session: it yields
    the table as committed and either a value or the exception raised. *)
Definition M (A : Type) := Table -> Table * result A.

Definition ret {A} (a : A) : M A := fun db => (db, Return a).

Definition raise {A} (e : exn) : M A := fun db => (db, Raise e).

Definition bind {A B} (m : M A) (k : A -> M B) : M B :=
  fun db =>
    match m db with
    | (db', Return a) => k a db'
    | (db', Raise e) => (db', Raise e)
    end.

Notation "x <- m ;; k" := (bind m (fun x => k))
  (at level 61, m at next level, right associativity).

(** ** Session primitives *)

(** The integers SQLite stores and accepts as parameters: signed 64-bit. *)
Definition INT64_MIN : Z := -9223372036854775808.
Definition INT64_MAX : Z := 9223372036854775807.

Definition is_int64 (n : Z) : bool := (INT64_MIN <=? n) && (n <=? INT64_MAX).

Definition has_id (task_id : Z) (r : Row.t) : bool := Row.id r =? task_id.

(** The instance loaded from a row. *)
Definition load (r : Row.t) : Task.t :=
  Task.mk (Some (Row.id r)) (Some (Row.title r)) (Row.description r) (Row.done r).

(** [db.query(Task).filter(Task.id == task_id).first()].  [task_id] is bound
    as a statement parameter, and the driver raises [OverflowError] for one
    that is not a signed 64-bit integer.  The ids a table stores are signed
    64-bit integers, so such a [task_id] is the id of no row: the check sits
    where the lookup finds none, which is the same thing on every table
    SQLite can hold. *)
Definition query_first (task_id : Z) : M (option Task.t) :=
  fun db =>
    match find (has_id task_id) db with
    | Some r => (db, Return (Some (load r)))
    | None =>
        if is_int64 task_id then (db, Return None) else (db, Raise OverflowError)
    end.

(** OFFSET and LIMIT as SQLite reads them: a negative offset is no offset, a
    negative limit is no limit. *)
Definition offset (skip : Z) (rows : Table) : Table :=
  skipn (Z.to_nat skip) rows.

Definition limit (n : Z) (rows : Table) : Table :=
  if n <? 0 then rows else firstn (Z.to_nat n) rows.

(** [db.query(Task).offset(skip).limit(limit).all()].  Both numbers are
    bound as statement parameters: [OverflowError] unless each is a signed
    64-bit integer. *)
Definition query_all (skip lim : Z) : M (list Task.t) :=
  fun db =>
    if is_int64 skip && is_int64 lim
    then (db, Return (map load (limit lim (offset skip db))))
    else (db, Raise OverflowError).

(** The rowid SQLite gives to a row inserted without one: one more than the
    largest in the table, 1 in an empty table. *)
Fixpoint max_rowid (i : Z) (rows : Table) : Z :=
  match rows with
  | [] => i
  | r :: rows' => max_rowid (Z.max i (Row.id r)) rows'
  end.

Definition next_rowid (db : Table) : Z :=
  match db with
  | [] => 1
  | r :: rows => max_rowid (Row.id r) rows + 1
  end.

(** [db.add(obj); db.commit()]: the flush of [obj].  An instance without
    identity is INSERTed (a [done] of [None] is left to the column default),
    a persistent one has its row UPDATEd in place.  A [title] of [None]
    violates NOT NULL: the statement fails, nothing is written. *)
Definition commit (obj : Task.t) : M Task.t :=
  fun db =>
    match Task.title obj with
    | None => (db, Raise IntegrityError)
    | Some title =>
        match Task.id obj with
        | None =>
            let i := next_rowid db in
            let done := match Task.done obj with Some b => b | None => false end in
            (db ++ [Row.mk i title (Task.description obj) (Some done)],
             Return (Task.mk (Some i) (Some title) (Task.description obj) (Some done)))
        | Some i =>
            let r := Row.mk i title (Task.description obj) (Task.done obj) in
            (map (fun x => if has_id i x then r else x) db, Return obj)
        end
    end.

(** [db.refresh(obj)]: the attributes are read again from the row. *)
Definition refresh (obj : Task.t) : M Task.t :=
  fun db =>
    match Task.id obj with
    | None => (db, Raise InvalidRequestError)
    | Some i =>
        match find (has_id i) db with
        | None => (db, Raise InvalidRequestError)
        | Some r => (db, Return (load r))
        end
    end.

(** [db.delete(obj); db.commit()]. *)
Definition delete_commit (obj : Task.t) : M unit :=
  fun db =>
    match Task.id obj with
    | None => (db, Raise InvalidRequestError)
    | Some i => (filter (fun x => negb (has_id i x)) db, Return tt)
    end.

(** ** Handlers *)

Definition not_found : exn := HTTPException 404 "Tarefa não encontrada".

Definition create_task (task : TaskCreate.t) : M Task.t :=
  let db_task :=
    Task.mk None (Some (TaskCreate.title task)) (TaskCreate.description task)
            (Some (TaskCreate.done task)) in
  db_task <- commit db_task ;;
  refresh db_task.

Definition read_tasks (skip lim : Z) : M (list Task.t) :=
  query_all skip lim.

Definition read_task (task_id : Z) : M Task.t :=
  db_task <- query_first task_id ;;
  match db_task with
  | None => raise not_found
  | Some db_task => ret db_task
  end.

Definition update_task (task_id : Z) (task : TaskUpdate.t) : M Task.t :=
  db_task <- query_first task_id ;;
  match db_task with
  | None => raise not_found
  | Some db_task =>
      let update_data := dict_exclude_unset task in
      let db_task := fold_left setattr update_data db_task in
      db_task <- commit db_task ;;
      refresh db_task
  end.

Definition delete_task (task_id : Z) : M unit :=
  db_task <- query_first task_id ;;
  match db_task with
  | None => raise not_found
  | Some db_task => delete_commit db_task
  end.

(** ** Routes *)

Inductive Content :=
| JSONTask (task : TaskInDB.t)
| JSONTasks (tasks : list TaskInDB.t)
| JSONDetail (detail : string)
| NoContent
| InternalServerError.

Record Response := mkResponse {
  status_code : Z;
  content : Content
}.

(** Validation of a returned instance against [TaskInDB]
    ([from_attributes = True]): [id], [title] and [done] must not be
    [None]. *)
Definition from_attributes (obj : Task.t) : option TaskInDB.t :=
  match Task.id obj, Task.title obj, Task.done obj with
  | Some i, Some title, Some done =>
      Some (TaskInDB.mk title (Task.description obj) done i)
  | _, _, _ => None
  end.

Fixpoint from_attributes_list (objs : list Task.t) : option (list TaskInDB.t) :=
  match objs with
  | [] => Some []
  | obj :: objs' =>
      match from_attributes obj, from_attributes_list objs' with
      | Some t, Some ts => Some (t :: ts)
      | _, _ => None
      end
  end.

(** A route: the handler is run; an [HTTPException] becomes its status and
    detail, any other exception a 500; a returned value that the
    [response_model] rejects is a 500 as well, after the handler has
    committed. *)
Definition route {A} (status : Z) (response_model : A -> option Content)
           (handler : M A) (db : Table) : Table * Response :=
  match handler db with
  | (db', Return a) =>
      match response_model a with
      | Some c => (db', mkResponse status c)
      | None => (db', mkResponse 500 InternalServerError)
      end
  | (db', Raise (HTTPException code detail)) => (db', mkResponse code (JSONDetail detail))
  | (db', Raise _) => (db', mkResponse 500 InternalServerError)
  end.

Definition task_model (obj : Task.t) : option Content :=
  option_map JSONTask (from_attributes obj).

Definition tasks_model (objs : list Task.t) : option Content :=
  option_map JSONTasks (from_attributes_list objs).

Definition no_model (_ : unit) : option Content := Some NoContent.

Definition POST_tasks (task : TaskCreate.t) := route 201 task_model (create_task task).
Definition GET_tasks (skip lim : Z) := route 200 tasks_model (read_tasks skip lim).
Definition GET_task (task_id : Z) := route 200 task_model (read_task task_id).
Definition PUT_task (task_id : Z) (task : TaskUpdate.t) :=
  route 200 task_model (update_task task_id task).
Definition DELETE_task (task_id : Z) := route 204 no_model (delete_task task_id).

(** ** Requests and reachable tables *)

Inductive Request :=
| Create (task : TaskCreate.t)
| List (skip lim : Z)
| Read (task_id : Z)
| Update (task_id : Z) (task : TaskUpdate.t)
| Delete (task_id : Z).

Definition serve (req : Request) : Table -> Table * Response :=
  match req with
  | Create task => POST_tasks task
  | List skip lim => GET_tasks skip lim
  | Read task_id => GET_task task_id
  | Update task_id task => PUT_task task_id task
  | Delete task_id => DELETE_task task_id
  end.

(** The tables the service can be in: the empty table created at startup,
    and any table a request leaves behind. *)
Inductive reachable : Table -> Prop :=
| reachable_init : reachable []
| reachable_serve (req : Request) (db : Table) :
    reachable db -> reachable (fst (serve req db)).

(** The table after the first create. *)
Definition one_task : Table :=
  fst (serve (Create (TaskCreate.parse "Buy milk" None None)) []).

Definition ids (db : Table) : list Z := map Row.id db.

(** ** Derived records, the update rule, and sample data *)

(** The row an INSERT of [task] writes into [db]. *)
Definition inserted (task : TaskCreate.t) (db : Table) : Row.t :=
  Row.mk (next_rowid db) (TaskCreate.title task) (TaskCreate.description task)
         (Some (TaskCreate.done task)).

(** The instance [update_task] flushes: the loaded row after the
    [setattr] loop. *)
Definition assigned (task : TaskUpdate.t) (old : Row.t) : Task.t :=
  fold_left setattr (dict_exclude_unset task) (load old).

(** Sample payloads: [{done: false}], [{done: null}] and [{title: null}]. *)
Definition done_false : TaskUpdate.t := TaskUpdate.mk None None (Some (Some false)).
Definition done_null : TaskUpdate.t := TaskUpdate.mk None None (Some None).
Definition title_null : TaskUpdate.t := TaskUpdate.mk (Some None) None None.

(** The updated record in the spec's words: a field present in the payload
    has the payload's value, a field absent from it keeps its prior value,
    and the id stays. *)
Definition overwritten (task : TaskUpdate.t) (old : Row.t) : Task.t :=
  Task.mk (Some (Row.id old))
    (match TaskUpdate.title task with Some v => v | None => Some (Row.title old) end)
    (match TaskUpdate.description task with Some v => v | None => Row.description old end)
    (match TaskUpdate.done task with Some v => v | None => Row.done old end).


(** Two sample tables for the worked instances below. *)
Definition milk : Row.t := Row.mk 1 "Buy milk" None (Some false).
Definition dog : Row.t := Row.mk 2 "Walk the dog" (Some "x") (Some true).
Definition two_tasks : Table := [milk; dog].

(** The answer to a request for an id that is not there. *)
Definition response_404 : Response := mkResponse 404 (JSONDetail "Tarefa não encontrada").

(** Every row has a [done] that is not NULL. *)
Definition done_defined (db : Table) : Prop :=
  forall r, In r db -> Row.done r <> None.

(** The list route as a client calls it: a query parameter left out takes
    the default of the signature, [skip: int = 0, limit: int = 100]. *)
Definition GET_tasks_query (skip lim : option Z) : Table -> Table * Response :=
  GET_tasks (match skip with Some n => n | None => 0 end)
            (match lim with Some n => n | None => 100 end).

(** The rows a list request selects. *)
Definition page (skip lim : Z) (db : Table) : Table := limit lim (offset skip db).

(** What the get, update and delete routes answer for an id no row has: 404,
    or 500 when binding the id overflows. *)
Definition response_of_missing (task_id : Z) : Response :=
  if is_int64 task_id then response_404 else mkResponse 500 InternalServerError.

(** The record shows the row: same id, title and description, and the row's
    [done] is the record's. *)
Definition shows (r : Row.t) (t : TaskInDB.t) : Prop :=
  Row.id r = TaskInDB.id t /\ Row.title r = TaskInDB.title t /\
  Row.description r = TaskInDB.description t /\
  Row.done r = Some (TaskInDB.done t).

(** The request carries an integer that is not a signed 64-bit one. *)
Definition out_of_range (req : Request) : bool :=
  match req with
  | Create _ => false
  | List skip lim => negb (is_int64 skip && is_int64 lim)
  | Read task_id | Update task_id _ | Delete task_id => negb (is_int64 task_id)
  end.

(** What a get of a stored row answers: the row's fields under 200, or a 500
    when its [done] is NULL. *)
Definition response_of_row (r : Row.t) : Response :=
  match Row.done r with
  | Some b =>
      mkResponse 200
        (JSONTask (TaskInDB.mk (Row.title r) (Row.description r) b (Row.id r)))
  | None => mkResponse 500 InternalServerError
  end.



Example ex_create :
  POST_tasks (TaskCreate.parse "Buy milk" None None) [] =
  ([Row.mk 1 "Buy milk" None (Some false)],
   mkResponse 201 (JSONTask (TaskInDB.mk "Buy milk" None false 1))).
Proof. reflexivity. Qed.

Example ex_update_done :
  PUT_task 1 (TaskUpdate.mk None None (Some (Some true)))
    [Row.mk 1 "a" (Some "x") (Some false)] =
  ([Row.mk 1 "a" (Some "x") (Some true)],
   mkResponse 200 (JSONTask (TaskInDB.mk "a" (Some "x") true 1))).
Proof. reflexivity. Qed.

(** ** Facts about the table *)

Lemma has_id_true (i : Z) (r : Row.t) : has_id i r = true <-> Row.id r = i.
Proof. unfold has_id. apply Z.eqb_eq. Qed.

Lemma has_id_false (i : Z) (r : Row.t) : has_id i r = false <-> Row.id r <> i.
Proof. unfold has_id. apply Z.eqb_neq. Qed.

Lemma find_has_id (i : Z) (db : Table) (r : Row.t) :
  find (has_id i) db = Some r -> In r db /\ Row.id r = i.
Proof.
  intros H. apply find_some in H. destruct H as [Hin Hid].
  split; [exact Hin | now apply has_id_true].
Qed.

Lemma find_absent (i : Z) (db : Table) :
  ~ In i (ids db) -> find (has_id i) db = None.
Proof.
  induction db as [|r db IH]; simpl; intros Hn; [reflexivity|].
  destruct (has_id i r) eqn:E.
  - apply has_id_true in E. tauto.
  - apply IH. tauto.
Qed.

Lemma find_present (i : Z) (db : Table) :
  In i (ids db) -> exists r, find (has_id i) db = Some r.
Proof.
  induction db as [|r db IH]; simpl; intros Hin; [contradiction|].
  destruct (has_id i r) eqn:E.
  - now exists r.
  - apply has_id_false in E. destruct Hin as [Hin|Hin]; [contradiction|auto].
Qed.

Lemma max_rowid_lower (rows : Table) : forall i, i <= max_rowid i rows.
Proof.
  induction rows as [|r rows IH]; simpl; intros i; [lia|].
  specialize (IH (Z.max i (Row.id r))). lia.
Qed.

Lemma max_rowid_upper (rows : Table) :
  forall i r, In r rows -> Row.id r <= max_rowid i rows.
Proof.
  induction rows as [|x rows IH]; simpl; intros i r Hin; [contradiction|].
  destruct Hin as [->|Hin].
  - pose proof (max_rowid_lower rows (Z.max i (Row.id r))). lia.
  - now apply IH.
Qed.

(** Every id in the table is below the next rowid. *)
Lemma next_rowid_above (db : Table) (r : Row.t) :
  In r db -> Row.id r < next_rowid db.
Proof.
  destruct db as [|x rows]; simpl; [contradiction|].
  intros [->|Hin].
  - pose proof (max_rowid_lower rows (Row.id r)). lia.
  - pose proof (max_rowid_upper rows (Row.id x) r Hin). lia.
Qed.

Lemma next_rowid_fresh (db : Table) : ~ In (next_rowid db) (ids db).
Proof.
  unfold ids. intros Hin. apply in_map_iff in Hin.
  destruct Hin as [r [Hid Hin]]. apply next_rowid_above in Hin. lia.
Qed.

(** The row appended under an unused id is the one a lookup finds. *)
Lemma find_appended (i : Z) (db : Table) (r : Row.t) :
  ~ In i (ids db) -> Row.id r = i -> find (has_id i) (db ++ [r]) = Some r.
Proof.
  intros Hfresh Hid. induction db as [|x db IH]; simpl in *.
  - replace (has_id i r) with true; [reflexivity|].
    symmetry. now apply has_id_true.
  - destruct (has_id i x) eqn:E.
    + apply has_id_true in E. tauto.
    + apply IH. tauto.
Qed.

Lemma find_inserted (db : Table) (r : Row.t) :
  Row.id r = next_rowid db -> find (has_id (next_rowid db)) (db ++ [r]) = Some r.
Proof. intros Hid. apply find_appended; [apply next_rowid_fresh | exact Hid]. Qed.

(** UPDATE ... WHERE id = i. *)
Lemma find_updated (i : Z) (db : Table) (old new : Row.t) :
  find (has_id i) db = Some old -> Row.id new = i ->
  find (has_id i) (map (fun x => if has_id i x then new else x) db) = Some new.
Proof.
  intros Hfind Hid. induction db as [|x db IH]; simpl in *; [discriminate|].
  destruct (has_id i x) eqn:E.
  - replace (has_id i new) with true; [reflexivity|].
    symmetry. now apply has_id_true.
  - rewrite E. now apply IH.
Qed.

Lemma update_same (i : Z) (db : Table) (r : Row.t) :
  find (has_id i) db = Some r -> NoDup (ids db) ->
  map (fun x => if has_id i x then r else x) db = db.
Proof.
  induction db as [|x db IH]; simpl; intros Hfind Hnd; [reflexivity|].
  inversion Hnd as [|? ? Hnotin Hnd']; subst.
  destruct (has_id i x) eqn:E.
  - injection Hfind as ->. f_equal.
    apply has_id_true in E. subst i.
    clear IH Hnd Hnd'. induction db as [|y db IH]; simpl; [reflexivity|].
    simpl in Hnotin. destruct (has_id (Row.id r) y) eqn:E.
    + apply has_id_true in E. tauto.
    + f_equal. apply IH. tauto.
  - f_equal. now apply IH.
Qed.

Lemma ids_updated (i : Z) (db : Table) (new : Row.t) :
  Row.id new = i ->
  ids (map (fun x => if has_id i x then new else x) db) = ids db.
Proof.
  intros Hid. unfold ids. rewrite map_map. apply map_ext_in.
  intros x _. destruct (has_id i x) eqn:E; [|reflexivity].
  apply has_id_true in E. congruence.
Qed.

(** DELETE ... WHERE id = i. *)
Lemma find_deleted (i : Z) (db : Table) :
  find (has_id i) (filter (fun x => negb (has_id i x)) db) = None.
Proof.
  induction db as [|x db IH]; simpl; [reflexivity|].
  destruct (has_id i x) eqn:E; simpl; [exact IH|].
  now rewrite E.
Qed.

Lemma ids_deleted (i : Z) (db : Table) :
  ids (filter (fun x => negb (has_id i x)) db) =
  filter (fun j => negb (j =? i)) (ids db).
Proof.
  induction db as [|x db IH]; simpl; [reflexivity|].
  unfold has_id at 1. destruct (Row.id x =? i); simpl; now rewrite IH.
Qed.



(** ** What each handler computes *)

Lemma create_task_run (task : TaskCreate.t) (db : Table) :
  create_task task db = (db ++ [inserted task db], Return (load (inserted task db))).
Proof.
  unfold create_task, bind, commit, refresh. simpl.
  fold (inserted task db).
  now rewrite (find_inserted db (inserted task db) eq_refl).
Qed.

Lemma POST_tasks_run (task : TaskCreate.t) (db : Table) :
  POST_tasks task db =
  (db ++ [inserted task db],
   mkResponse 201
     (JSONTask (TaskInDB.mk (TaskCreate.title task) (TaskCreate.description task)
                            (TaskCreate.done task) (next_rowid db)))).
Proof. unfold POST_tasks, route. now rewrite create_task_run. Qed.


Lemma read_task_missing (task_id : Z) (db : Table) :
  find (has_id task_id) db = None -> is_int64 task_id = true ->
  read_task task_id db = (db, Raise not_found).
Proof. intros H Hr. unfold read_task, bind, query_first. now rewrite H, Hr. Qed.

Lemma update_task_missing (task_id : Z) (task : TaskUpdate.t) (db : Table) :
  find (has_id task_id) db = None -> is_int64 task_id = true ->
  update_task task_id task db = (db, Raise not_found).
Proof. intros H Hr. unfold update_task, bind, query_first. now rewrite H, Hr. Qed.

Lemma delete_task_missing (task_id : Z) (db : Table) :
  find (has_id task_id) db = None -> is_int64 task_id = true ->
  delete_task task_id db = (db, Raise not_found).
Proof. intros H Hr. unfold delete_task, bind, query_first. now rewrite H, Hr. Qed.

Lemma read_task_overflow (task_id : Z) (db : Table) :
  find (has_id task_id) db = None -> is_int64 task_id = false ->
  read_task task_id db = (db, Raise OverflowError).
Proof. intros H Hr. unfold read_task, bind, query_first. now rewrite H, Hr. Qed.

Lemma update_task_overflow (task_id : Z) (task : TaskUpdate.t) (db : Table) :
  find (has_id task_id) db = None -> is_int64 task_id = false ->
  update_task task_id task db = (db, Raise OverflowError).
Proof. intros H Hr. unfold update_task, bind, query_first. now rewrite H, Hr. Qed.

Lemma delete_task_overflow (task_id : Z) (db : Table) :
  find (has_id task_id) db = None -> is_int64 task_id = false ->
  delete_task task_id db = (db, Raise OverflowError).
Proof. intros H Hr. unfold delete_task, bind, query_first. now rewrite H, Hr. Qed.

Lemma read_task_keeps_table (task_id : Z) (db : Table) :
  fst (read_task task_id db) = db.
Proof.
  unfold read_task, bind, query_first.
  destruct (find (has_id task_id) db); [reflexivity|].
  now destruct (is_int64 task_id).
Qed.

Lemma read_tasks_keeps_table (skip lim : Z) (db : Table) :
  fst (read_tasks skip lim db) = db.
Proof.
  unfold read_tasks, query_all. now destruct (is_int64 skip && is_int64 lim).
Qed.

Lemma is_int64_iff (n : Z) : is_int64 n = true <-> INT64_MIN <= n <= INT64_MAX.
Proof. unfold is_int64. rewrite andb_true_iff, !Z.leb_le. tauto. Qed.

Lemma is_int64_nonneg (n : Z) : 0 <= n <= INT64_MAX -> is_int64 n = true.
Proof. intros H. apply is_int64_iff. unfold INT64_MIN. lia. Qed.

Lemma read_tasks_in_range (skip lim : Z) (db : Table) :
  is_int64 skip = true -> is_int64 lim = true ->
  read_tasks skip lim db = (db, Return (map load (limit lim (offset skip db)))).
Proof. intros Hs Hl. unfold read_tasks, query_all. now rewrite Hs, Hl. Qed.

Lemma read_tasks_overflow (skip lim : Z) (db : Table) :
  is_int64 skip && is_int64 lim = false ->
  read_tasks skip lim db = (db, Raise OverflowError).
Proof. intros H. unfold read_tasks, query_all. now rewrite H. Qed.

Lemma update_task_none_table (task_id : Z) (task : TaskUpdate.t) (db : Table) :
  find (has_id task_id) db = None -> fst (update_task task_id task db) = db.
Proof.
  intros H. unfold update_task, bind, query_first. rewrite H.
  now destruct (is_int64 task_id).
Qed.

Lemma delete_task_none_table (task_id : Z) (db : Table) :
  find (has_id task_id) db = None -> fst (delete_task task_id db) = db.
Proof.
  intros H. unfold delete_task, bind, query_first. rewrite H.
  now destruct (is_int64 task_id).
Qed.

Lemma delete_task_found (task_id : Z) (db : Table) (r : Row.t) :
  find (has_id task_id) db = Some r ->
  delete_task task_id db = (filter (fun x => negb (has_id task_id x)) db, Return tt).
Proof.
  intros H. unfold delete_task, bind, query_first. rewrite H. simpl.
  apply find_has_id in H. destruct H as [_ Hid].
  unfold delete_commit. simpl. now rewrite Hid.
Qed.

Lemma assigned_fields (task : TaskUpdate.t) (old : Row.t) :
  assigned task old = overwritten task old.
Proof.
  unfold assigned, overwritten, dict_exclude_unset, load.
  destruct task as [[t|] [d|] [b|]]; reflexivity.
Qed.


Lemma update_task_found (task_id : Z) (task : TaskUpdate.t) (db : Table)
      (old : Row.t) (title : string) :
  find (has_id task_id) db = Some old ->
  Task.title (assigned task old) = Some title ->
  let new := Row.mk task_id title (Task.description (assigned task old))
                    (Task.done (assigned task old)) in
  update_task task_id task db =
  (map (fun x => if has_id task_id x then new else x) db, Return (load new)).
Proof.
  intros Hfind Htitle new.
  pose proof (find_has_id _ _ _ Hfind) as [_ Hid].
  unfold update_task, bind, query_first. rewrite Hfind. simpl.
  fold (assigned task old). unfold commit. rewrite Htitle.
  replace (Task.id (assigned task old)) with (Some task_id)
    by (rewrite assigned_fields; simpl; congruence).
  fold new. unfold refresh.
  replace (Task.id (assigned task old)) with (Some task_id)
    by (rewrite assigned_fields; simpl; congruence).
  now rewrite (find_updated _ db old new Hfind eq_refl).
Qed.

Lemma update_task_null_title (task_id : Z) (task : TaskUpdate.t) (db : Table)
      (old : Row.t) :
  find (has_id task_id) db = Some old ->
  Task.title (assigned task old) = None ->
  update_task task_id task db = (db, Raise IntegrityError).
Proof.
  intros Hfind Htitle.
  unfold update_task, bind, query_first. rewrite Hfind. simpl.
  fold (assigned task old). unfold commit. now rewrite Htitle.
Qed.


(** ** Missing ids *)

Section MissingId.

Variable db : Table.
Variable task_id : Z.
Hypothesis absent : ~ In task_id (ids db).

Lemma not_there : find (has_id task_id) db = None.
Proof. exact (find_absent task_id db absent). Qed.

Lemma read_task_absent :
  is_int64 task_id = true -> read_task task_id db = (db, Raise not_found).
Proof. exact (read_task_missing task_id db not_there). Qed.

Lemma update_task_absent (task : TaskUpdate.t) :
  is_int64 task_id = true -> update_task task_id task db = (db, Raise not_found).
Proof. exact (update_task_missing task_id task db not_there). Qed.

Lemma delete_task_absent :
  is_int64 task_id = true -> delete_task task_id db = (db, Raise not_found).
Proof. exact (delete_task_missing task_id db not_there). Qed.

(** C2, amended: for an id that is a signed 64-bit integer and that no row
    of the table has, each of the get, update and delete routes answers 404
    with the not-found detail, and nothing else. *)
Theorem missing_id_yields_404 (task : TaskUpdate.t) :
  is_int64 task_id = true ->
  snd (GET_task task_id db) = response_404 /\
  snd (PUT_task task_id task db) = response_404 /\
  snd (DELETE_task task_id db) = response_404.
Proof.
  intros Hrange. unfold GET_task, PUT_task, DELETE_task, route.
  rewrite (read_task_absent Hrange), (update_task_absent task Hrange),
    (delete_task_absent Hrange).
  repeat split.
Qed.

(** C10: for an id that no row of the table has, the failing get, update and
    delete leave the table exactly as it was. *)
Theorem missing_id_keeps_table (task : TaskUpdate.t) :
  fst (GET_task task_id db) = db /\
  fst (PUT_task task_id task db) = db /\
  fst (DELETE_task task_id db) = db.
Proof.
  unfold GET_task, PUT_task, DELETE_task, route.
  destruct (is_int64 task_id) eqn:Hrange.
  - rewrite (read_task_absent Hrange), (update_task_absent task Hrange),
      (delete_task_absent Hrange).
    repeat split.
  - rewrite (read_task_overflow task_id db not_there Hrange),
      (update_task_overflow task_id task db not_there Hrange),
      (delete_task_overflow task_id db not_there Hrange).
    repeat split.
Qed.

End MissingId.

(** C2, as stated, fails: 2^63 is the id of no row of the table, and the
    get, update and delete of it are answered 500, not 404. *)
Lemma missing_id_out_of_range_counterexample :
  ~ In (INT64_MAX + 1) (ids two_tasks) /\
  ~ (snd (GET_task (INT64_MAX + 1) two_tasks) = response_404 /\
     snd (PUT_task (INT64_MAX + 1) done_false two_tasks) = response_404 /\
     snd (DELETE_task (INT64_MAX + 1) two_tasks) = response_404).
Proof.
  split.
  - simpl. unfold INT64_MAX. lia.
  - intros [H _]. vm_compute in H. discriminate H.
Qed.

Lemma missing_id_yields_404_witness :
  ~ In 3 (ids two_tasks) /\
  is_int64 3 = true /\
  (snd (GET_task 3 two_tasks) = response_404 /\
   snd (PUT_task 3 done_false two_tasks) = response_404 /\
   snd (DELETE_task 3 two_tasks) = response_404).
Proof.
  assert (H : ~ In 3 (ids two_tasks)) by (simpl; lia).
  assert (R : is_int64 3 = true) by reflexivity.
  split; [exact H | split; [exact R |]].
  exact (missing_id_yields_404 two_tasks 3 H done_false R).
Defined.

Lemma missing_id_keeps_table_witness :
  ~ In 3 (ids two_tasks) /\
  (fst (GET_task 3 two_tasks) = two_tasks /\
   fst (PUT_task 3 done_false two_tasks) = two_tasks /\
   fst (DELETE_task 3 two_tasks) = two_tasks).
Proof.
  assert (H : ~ In 3 (ids two_tasks)) by (simpl; lia).
  split; [exact H | exact (missing_id_keeps_table two_tasks 3 H done_false)].
Defined.

(** ** Create *)



(** ** Delete *)

(** C5: deleting an id some row has answers 204 with no content and removes
    the rows of that id; a get of the id on the resulting table answers
    404.  The id is a signed 64-bit integer, as every id that a table of
    SQLite holds is. *)
Theorem delete_then_get (db : Table) (task_id : Z) :
  In task_id (ids db) ->
  is_int64 task_id = true ->
  DELETE_task task_id db =
    (filter (fun x => negb (has_id task_id x)) db, mkResponse 204 NoContent) /\
  snd (GET_task task_id (fst (DELETE_task task_id db))) = response_404.
Proof.
  intros Hin Hrange. apply find_present in Hin. destruct Hin as [r Hfind].
  assert (Hdel : DELETE_task task_id db =
    (filter (fun x => negb (has_id task_id x)) db, mkResponse 204 NoContent)).
  { unfold DELETE_task, route. now rewrite (delete_task_found _ _ _ Hfind). }
  split; [exact Hdel|]. rewrite Hdel. simpl.
  unfold GET_task, route.
  now rewrite (read_task_missing _ _ (find_deleted task_id db) Hrange).
Qed.

Lemma delete_then_get_witness :
  In 1 (ids two_tasks) /\
  is_int64 1 = true /\
  (DELETE_task 1 two_tasks =
     (filter (fun x => negb (has_id 1 x)) two_tasks, mkResponse 204 NoContent) /\
   snd (GET_task 1 (fst (DELETE_task 1 two_tasks))) = response_404).
Proof.
  assert (H : In 1 (ids two_tasks)) by (simpl; auto).
  assert (R : is_int64 1 = true) by reflexivity.
  split; [exact H | split; [exact R | exact (delete_then_get two_tasks 1 H R)]].
Defined.

(** ** Update *)

(** X15: an explicit null for the title reaches the NOT NULL column: the commit
    raises, the route answers 500 and the row keeps its title. *)
Lemma update_null_title_rejected (db : Table) (task_id : Z) (task : TaskUpdate.t)
      (old : Row.t) :
  find (has_id task_id) db = Some old ->
  TaskUpdate.title task = Some None ->
  PUT_task task_id task db = (db, mkResponse 500 InternalServerError).
Proof.
  intros Hfind Hnull. unfold PUT_task, route.
  rewrite (update_task_null_title task_id task db old Hfind); [reflexivity|].
  rewrite assigned_fields. unfold overwritten. simpl. now rewrite Hnull.
Qed.




Example ex_update_keeps_description :
  PUT_task 2 done_false two_tasks =
  ([milk; Row.mk 2 "Walk the dog" (Some "x") (Some false)],
   mkResponse 200 (JSONTask (TaskInDB.mk "Walk the dog" (Some "x") false 2))).
Proof. reflexivity. Qed.

(** X16: the empty payload on a row whose [done] is defined: the route answers 200
    with the row as it was, and the row stays as it was. *)
Lemma update_empty_on_defined_done (db : Table) (task_id : Z) (old : Row.t) (b : bool) :
  find (has_id task_id) db = Some old ->
  Row.done old = Some b ->
  snd (PUT_task task_id TaskUpdate.empty db) =
    mkResponse 200
      (JSONTask (TaskInDB.mk (Row.title old) (Row.description old) b (Row.id old))) /\
  find (has_id task_id) (fst (PUT_task task_id TaskUpdate.empty db)) = Some old /\
  (NoDup (ids db) -> fst (PUT_task task_id TaskUpdate.empty db) = db).
Proof.
  intros Hfind Hdone.
  pose proof (find_has_id _ _ _ Hfind) as [_ Hid].
  assert (Ht : Task.title (assigned TaskUpdate.empty old) = Some (Row.title old))
    by reflexivity.
  pose proof (update_task_found task_id TaskUpdate.empty db old _ Hfind Ht) as Hupd.
  simpl in Hupd.
  replace (Row.mk task_id (Row.title old) (Row.description old) (Row.done old))
    with old in Hupd by (destruct old; simpl in *; congruence).
  unfold PUT_task, route. rewrite Hupd. unfold task_model, from_attributes, load.
  simpl. rewrite Hdone. simpl. split; [reflexivity|]. split.
  - now apply find_updated with (old := old).
  - intros Hnd. now apply update_same.
Qed.

(** C9 at a row whose [done] is null: after [{done: null}] has been stored
    for task 1, the empty update of task 1, an id present in the table, is
    answered 500 and not 200. *)
Theorem update_empty_after_null_done :
  fst (PUT_task 1 done_null [milk]) = [Row.mk 1 "Buy milk" None None] /\
  In 1 (ids (fst (PUT_task 1 done_null [milk]))) /\
  snd (PUT_task 1 TaskUpdate.empty (fst (PUT_task 1 done_null [milk]))) =
    mkResponse 500 InternalServerError.
Proof. vm_compute. auto. Qed.

(** ** The done column *)

(** C4 at the payload [{done: null}]: from the empty table, a create followed
    by an update of the created task with an explicit null for [done]
    leaves a reachable table whose row has no [done]; the update itself is
    answered 500, after the null has been committed. *)
Theorem update_done_null_is_stored :
  let db1 := fst (serve (Create (TaskCreate.parse "Buy milk" None None)) []) in
  let db2 := fst (serve (Update 1 done_null) db1) in
  reachable db2 /\
  db2 = [Row.mk 1 "Buy milk" None None] /\
  ~ done_defined db2 /\
  snd (serve (Update 1 done_null) db1) = mkResponse 500 InternalServerError.
Proof.
  intros db1 db2. split; [|split; [|split]].
  - unfold db2, db1. apply reachable_serve, reachable_serve, reachable_init.
  - reflexivity.
  - intros H. apply (H (Row.mk 1 "Buy milk" None None)); [left|]; reflexivity.
  - reflexivity.
Qed.

(** ** The table after each request *)

Lemma route_table {A : Type} (status : Z) (model : A -> option Content)
      (handler : M A) (db : Table) :
  fst (route status model handler db) = fst (handler db).
Proof.
  unfold route. destruct (handler db) as [db' [a|e]]; simpl.
  - now destruct (model a).
  - now destruct e.
Qed.

Lemma GET_task_table (task_id : Z) (db : Table) : fst (GET_task task_id db) = db.
Proof.
  unfold GET_task. rewrite route_table. apply read_task_keeps_table.
Qed.

Lemma GET_tasks_table (skip lim : Z) (db : Table) : fst (GET_tasks skip lim db) = db.
Proof. unfold GET_tasks. rewrite route_table. apply read_tasks_keeps_table. Qed.

Lemma POST_tasks_table (task : TaskCreate.t) (db : Table) :
  fst (POST_tasks task db) = db ++ [inserted task db].
Proof. now rewrite POST_tasks_run. Qed.

Lemma DELETE_task_table (task_id : Z) (db : Table) :
  fst (DELETE_task task_id db) = filter (fun x => negb (has_id task_id x)) db.
Proof.
  unfold DELETE_task. rewrite route_table.
  destruct (find (has_id task_id) db) as [r|] eqn:Hfind.
  - now rewrite (delete_task_found _ _ _ Hfind).
  - rewrite (delete_task_none_table _ _ Hfind).
    symmetry. clear - Hfind. induction db as [|x db IH]; simpl in *; [reflexivity|].
    destruct (has_id task_id x); [discriminate|]. simpl. f_equal. now apply IH.
Qed.

(** An update leaves the table as it was (no such id, or the commit
    failed), or rewrites the rows of that id with a row of the same id. *)
Lemma PUT_task_table (task_id : Z) (task : TaskUpdate.t) (db : Table) :
  fst (PUT_task task_id task db) = db \/
  exists old title,
    find (has_id task_id) db = Some old /\
    Task.title (overwritten task old) = Some title /\
    fst (PUT_task task_id task db) =
    map (fun x => if has_id task_id x
                  then Row.mk task_id title (Task.description (overwritten task old))
                              (Task.done (overwritten task old))
                  else x) db.
Proof.
  unfold PUT_task. rewrite route_table.
  destruct (find (has_id task_id) db) as [old|] eqn:Hfind.
  - destruct (Task.title (assigned task old)) as [title|] eqn:Ht.
    + right. exists old, title. rewrite <- assigned_fields.
      repeat split; [exact Ht|].
      now rewrite (update_task_found task_id task db old title Hfind Ht).
    + left. now rewrite (update_task_null_title task_id task db old Hfind Ht).
  - left. now rewrite (update_task_none_table _ _ _ Hfind).
Qed.

(** X17: every request except an update that sets [done] to null keeps every
    [done] in the table defined. *)
Lemma done_defined_preserved (req : Request) (db : Table) :
  done_defined db ->
  (forall task_id task, req = Update task_id task -> TaskUpdate.done task <> Some None) ->
  done_defined (fst (serve req db)).
Proof.
  intros Hdb Hreq. destruct req as [task|skip lim|task_id|task_id task|task_id]; simpl.
  - rewrite POST_tasks_table. intros r Hin. apply in_app_or in Hin.
    destruct Hin as [Hin|[<-|[]]]; [now apply Hdb | discriminate].
  - now rewrite GET_tasks_table.
  - now rewrite GET_task_table.
  - destruct (PUT_task_table task_id task db) as [->|[old [title [Hfind [_ ->]]]]];
      [exact Hdb|].
    intros r Hin. apply in_map_iff in Hin. destruct Hin as [x [Hx Hin]].
    destruct (has_id task_id x); [|subst; now apply Hdb].
    subst r. simpl. specialize (Hreq task_id task eq_refl).
    destruct (TaskUpdate.done task) as [[b|]|]; [discriminate | congruence |].
    apply Hdb. now apply find_has_id in Hfind.
  - rewrite DELETE_task_table. intros r Hin. apply filter_In in Hin. now apply Hdb.
Qed.

(** ** The primary key *)

(** The ids of the table after a request: an update, a get and a list keep
    them all in place, a create appends one that was not there, a delete
    removes the one it names and keeps the others in place. *)
Lemma serve_ids (req : Request) (db : Table) :
  ids (fst (serve req db)) =
  match req with
  | Create _ => ids db ++ [next_rowid db]
  | Delete task_id => filter (fun j => negb (j =? task_id)) (ids db)
  | _ => ids db
  end.
Proof.
  destruct req as [task|skip lim|task_id|task_id task|task_id]; simpl.
  - rewrite POST_tasks_table. unfold ids. now rewrite map_app.
  - now rewrite GET_tasks_table.
  - now rewrite GET_task_table.
  - destruct (PUT_task_table task_id task db) as [->|[old [title [_ [_ ->]]]]];
      [reflexivity|].
    now apply ids_updated.
  - rewrite DELETE_task_table. apply ids_deleted.
Qed.

Lemma NoDup_filter_Z (f : Z -> bool) (l : list Z) : NoDup l -> NoDup (filter f l).
Proof.
  induction 1 as [|x l Hnotin Hnd IH]; simpl; [constructor|].
  destruct (f x); [|exact IH].
  constructor; [|exact IH]. intros Hin. apply filter_In in Hin. tauto.
Qed.

Lemma NoDup_snoc_Z (x : Z) (l : list Z) : NoDup l -> ~ In x l -> NoDup (l ++ [x]).
Proof.
  induction 1 as [|y l Hnotin Hnd IH]; simpl; intros Hx.
  - constructor; [tauto | constructor].
  - constructor.
    + intros Hin. apply in_app_or in Hin. simpl in Hin. intuition congruence.
    + apply IH. tauto.
Qed.



(** ** List *)

(** C7, as stated, fails: [skip = 2^63] is a non-negative integer, and the
    list handler returns no page for it, it raises. *)
Lemma list_out_of_range_counterexample :
  0 <= INT64_MAX + 1 /\ 0 <= 1 /\
  ~ exists objs, snd (read_tasks (INT64_MAX + 1) 1 two_tasks) = Return objs.
Proof.
  split; [unfold INT64_MAX; lia | split; [lia|]].
  intros [objs H]. vm_compute in H. discriminate H.
Qed.

(** C7, amended: for non-negative [skip] and [limit] within the signed
    64-bit range, the list handler leaves the table as it is and returns the
    rows of the table, in table order, after the first [skip] and up to
    [limit] of them; the route answers 200 with them when each has a defined
    [done].  On a table of two rows, [skip=0, limit=1] returns the first row
    alone and [skip=1, limit=1] the second alone, a different record when
    the two ids differ. *)
Theorem list_skips_and_limits (db : Table) (skip lim : Z) :
  0 <= skip <= INT64_MAX -> 0 <= lim <= INT64_MAX ->
  read_tasks skip lim db =
    (db, Return (map load (firstn (Z.to_nat lim) (skipn (Z.to_nat skip) db)))) /\
  (forall objs, snd (read_tasks skip lim db) = Return objs ->
                Z.of_nat (List.length objs) <= lim) /\
  (forall objs tasks,
      snd (read_tasks skip lim db) = Return objs ->
      from_attributes_list objs = Some tasks ->
      GET_tasks skip lim db = (db, mkResponse 200 (JSONTasks tasks))) /\
  (forall a b, db = [a; b] ->
      read_tasks 0 1 db = (db, Return [load a]) /\
      read_tasks 1 1 db = (db, Return [load b]) /\
      (NoDup (ids db) -> load a <> load b)).
Proof.
  intros Hskip Hlim.
  assert (Hrun : read_tasks skip lim db =
    (db, Return (map load (firstn (Z.to_nat lim) (skipn (Z.to_nat skip) db))))).
  { rewrite read_tasks_in_range by now apply is_int64_nonneg.
    unfold limit, offset.
    destruct (lim <? 0) eqn:E; [apply Z.ltb_lt in E; lia | reflexivity]. }
  split; [exact Hrun|]. split; [|split].
  - intros objs Hobjs. rewrite Hrun in Hobjs. simpl in Hobjs.
    injection Hobjs as <-. rewrite length_map.
    pose proof (firstn_le_length (Z.to_nat lim) (skipn (Z.to_nat skip) db)). lia.
  - intros objs tasks Hobjs Htasks. unfold GET_tasks, route.
    rewrite Hrun in Hobjs |- *. simpl in Hobjs. injection Hobjs as <-.
    unfold tasks_model. now rewrite Htasks.
  - intros a b ->. repeat split.
    intros Hnd Heq. inversion Hnd as [|? ? Hnotin _]; subst.
    apply Hnotin. left. unfold load in Heq. now injection Heq.
Qed.

Lemma list_skips_and_limits_witness :
  0 <= 1 <= INT64_MAX /\ 0 <= 1 <= INT64_MAX /\
  (read_tasks 1 1 two_tasks =
     (two_tasks, Return (map load (firstn (Z.to_nat 1) (skipn (Z.to_nat 1) two_tasks)))) /\
   (forall objs, snd (read_tasks 1 1 two_tasks) = Return objs ->
                 Z.of_nat (List.length objs) <= 1) /\
   (forall objs tasks,
       snd (read_tasks 1 1 two_tasks) = Return objs ->
       from_attributes_list objs = Some tasks ->
       GET_tasks 1 1 two_tasks = (two_tasks, mkResponse 200 (JSONTasks tasks))) /\
   (forall a b, two_tasks = [a; b] ->
       read_tasks 0 1 two_tasks = (two_tasks, Return [load a]) /\
       read_tasks 1 1 two_tasks = (two_tasks, Return [load b]) /\
       (NoDup (ids two_tasks) -> load a <> load b))).
Proof.
  assert (H : 0 <= 1 <= INT64_MAX) by (unfold INT64_MAX; lia).
  split; [exact H | split; [exact H |]].
  exact (list_skips_and_limits two_tasks 1 1 H H).
Defined.

Example ex_list_pages :
  GET_tasks 0 1 two_tasks =
    (two_tasks, mkResponse 200 (JSONTasks [TaskInDB.mk "Buy milk" None false 1])) /\
  GET_tasks 1 1 two_tasks =
    (two_tasks, mkResponse 200 (JSONTasks [TaskInDB.mk "Walk the dog" (Some "x") true 2])).
Proof. split; reflexivity. Qed.

(** ** Lookups across writes *)

Lemma find_app_old (j : Z) (db : Table) (r x : Row.t) :
  find (has_id j) db = Some x -> find (has_id j) (db ++ [r]) = Some x.
Proof.
  induction db as [|y db IH]; simpl; [discriminate|].
  destruct (has_id j y); [trivial | exact IH].
Qed.

Lemma find_filter_other (i j : Z) (db : Table) :
  j <> i ->
  find (has_id j) (filter (fun x => negb (has_id i x)) db) = find (has_id j) db.
Proof.
  intros Hne. induction db as [|y db IH]; simpl; [reflexivity|].
  destruct (has_id i y) eqn:Ei; simpl.
  - destruct (has_id j y) eqn:Ej; [|exact IH].
    apply has_id_true in Ei, Ej. congruence.
  - now rewrite IH.
Qed.

Lemma find_map_other (i j : Z) (db : Table) (new : Row.t) :
  j <> i -> Row.id new = i ->
  find (has_id j) (map (fun x => if has_id i x then new else x) db) =
  find (has_id j) db.
Proof.
  intros Hne Hid. induction db as [|y db IH]; simpl; [reflexivity|].
  destruct (has_id i y) eqn:Ei.
  - replace (has_id j new) with false
      by (symmetry; apply has_id_false; congruence).
    replace (has_id j y) with false; [exact IH|].
    symmetry. apply has_id_false. apply has_id_true in Ei. congruence.
  - destruct (has_id j y); [reflexivity | exact IH].
Qed.

(** A get answers from the first row of the id alone. *)
Lemma GET_task_run (task_id : Z) (db : Table) :
  GET_task task_id db =
  (db, match find (has_id task_id) db with
       | Some r => response_of_row r
       | None => response_of_missing task_id
       end).
Proof.
  unfold GET_task, route, read_task, bind, query_first, response_of_missing.
  destruct (find (has_id task_id) db) as [r|]; simpl.
  - unfold task_model, from_attributes, load, response_of_row. simpl.
    now destruct (Row.done r).
  - now destruct (is_int64 task_id).
Qed.

Lemma reachable_NoDup (db : Table) : reachable db -> NoDup (ids db).
Proof.
  induction 1 as [|req db Hreach IH]; [constructor|].
  rewrite serve_ids. destruct req; try exact IH.
  - apply NoDup_snoc_Z; [exact IH | apply next_rowid_fresh].
  - now apply NoDup_filter_Z.
Qed.

(** The whole of a successful update, or of one stopped by a null title. *)
Lemma PUT_task_run (task_id : Z) (task : TaskUpdate.t) (db : Table) (old : Row.t) :
  find (has_id task_id) db = Some old ->
  PUT_task task_id task db =
  match Task.title (overwritten task old) with
  | Some title =>
      let new := Row.mk task_id title (Task.description (overwritten task old))
                        (Task.done (overwritten task old)) in
      (map (fun x => if has_id task_id x then new else x) db, response_of_row new)
  | None => (db, mkResponse 500 InternalServerError)
  end.
Proof.
  intros Hfind. unfold PUT_task, route. rewrite <- assigned_fields.
  destruct (Task.title (assigned task old)) as [title|] eqn:Ht.
  - rewrite (update_task_found task_id task db old title Hfind Ht). simpl.
    unfold task_model, from_attributes, load, response_of_row. simpl.
    now destruct (Task.done (assigned task old)).
  - now rewrite (update_task_null_title task_id task db old Hfind Ht).
Qed.

Lemma PUT_task_run_missing (task_id : Z) (task : TaskUpdate.t) (db : Table) :
  find (has_id task_id) db = None ->
  PUT_task task_id task db = (db, response_of_missing task_id).
Proof.
  intros Hfind. unfold PUT_task, route, response_of_missing.
  destruct (is_int64 task_id) eqn:Hrange.
  - now rewrite (update_task_missing task_id task db Hfind Hrange).
  - now rewrite (update_task_overflow task_id task db Hfind Hrange).
Qed.

Lemma DELETE_task_run_missing (task_id : Z) (db : Table) :
  find (has_id task_id) db = None ->
  DELETE_task task_id db = (db, response_of_missing task_id).
Proof.
  intros Hfind. unfold DELETE_task, route, response_of_missing.
  destruct (is_int64 task_id) eqn:Hrange.
  - now rewrite (delete_task_missing task_id db Hfind Hrange).
  - now rewrite (delete_task_overflow task_id db Hfind Hrange).
Qed.


(** ** Reads of stored rows *)

(** X1: a get of an id some row has answers from the first row of that id, and
    changes nothing: 200 with the row's title, description, done and id when
    its [done] is defined, 500 when its [done] is NULL. *)
Theorem get_returns_stored_row (db : Table) (task_id : Z) :
  In task_id (ids db) ->
  exists r,
    In r db /\ Row.id r = task_id /\
    fst (GET_task task_id db) = db /\
    (forall b, Row.done r = Some b ->
       snd (GET_task task_id db) =
       mkResponse 200
         (JSONTask (TaskInDB.mk (Row.title r) (Row.description r) b task_id))) /\
    (Row.done r = None ->
       snd (GET_task task_id db) = mkResponse 500 InternalServerError).
Proof.
  intros Hin. destruct (find_present task_id db Hin) as [r Hfind].
  destruct (find_has_id _ _ _ Hfind) as [Hr Hid].
  exists r. rewrite GET_task_run, Hfind. simpl. unfold response_of_row.
  repeat split; try assumption.
  - intros b Hb. now rewrite Hb, Hid.
  - intros Hb. now rewrite Hb.
Qed.

Lemma get_returns_stored_row_witness :
  In 2 (ids two_tasks) /\
  exists r,
    In r two_tasks /\ Row.id r = 2 /\
    fst (GET_task 2 two_tasks) = two_tasks /\
    (forall b, Row.done r = Some b ->
       snd (GET_task 2 two_tasks) =
       mkResponse 200
         (JSONTask (TaskInDB.mk (Row.title r) (Row.description r) b 2))) /\
    (Row.done r = None ->
       snd (GET_task 2 two_tasks) = mkResponse 500 InternalServerError).
Proof.
  assert (H : In 2 (ids two_tasks)) by (simpl; auto).
  split; [exact H | exact (get_returns_stored_row two_tasks 2 H)].
Defined.

(** X2: after an update answered 200, a get of the same id answers with the very
    same response. *)
Theorem get_after_update (db : Table) (task_id : Z) (task : TaskUpdate.t) :
  status_code (snd (PUT_task task_id task db)) = 200 ->
  snd (GET_task task_id (fst (PUT_task task_id task db))) =
  snd (PUT_task task_id task db).
Proof.
  intros Hok. destruct (find (has_id task_id) db) as [old|] eqn:Hfind.
  - rewrite (PUT_task_run task_id task db old Hfind) in Hok |- *.
    destruct (Task.title (overwritten task old)) as [title|]; [|discriminate Hok].
    cbv zeta in *. simpl fst. simpl snd. rewrite GET_task_run. simpl snd.
    set (new := Row.mk task_id title _ _).
    now rewrite (find_updated task_id db old new Hfind eq_refl).
  - rewrite (PUT_task_run_missing task_id task db Hfind) in Hok.
    unfold response_of_missing in Hok. destruct (is_int64 task_id); discriminate Hok.
Qed.

Lemma get_after_update_witness :
  status_code (snd (PUT_task 2 done_false two_tasks)) = 200 /\
  snd (GET_task 2 (fst (PUT_task 2 done_false two_tasks))) =
  snd (PUT_task 2 done_false two_tasks).
Proof.
  assert (H : status_code (snd (PUT_task 2 done_false two_tasks)) = 200) by reflexivity.
  split; [exact H | exact (get_after_update two_tasks 2 done_false H)].
Defined.

(** ** Writes leave the other tasks alone *)

(** X3: the ids a request may change the lookup of: none for a read, the id it
    names for an update or a delete, and for a create only ids that are not
    in the table yet. *)
Theorem other_tasks_untouched (req : Request) (db : Table) (j : Z) :
  match req with
  | Create _ => In j (ids db)
  | Update task_id _ | Delete task_id => j <> task_id
  | List _ _ | Read _ => True
  end ->
  find (has_id j) (fst (serve req db)) = find (has_id j) db /\
  snd (GET_task j (fst (serve req db))) = snd (GET_task j db).
Proof.
  intros Hreq.
  assert (Hfind : find (has_id j) (fst (serve req db)) = find (has_id j) db).
  { destruct req as [task|skip lim|task_id|task_id task|task_id]; simpl.
    - rewrite POST_tasks_table. destruct (find_present j db Hreq) as [x Hx].
      rewrite Hx. now apply find_app_old.
    - now rewrite GET_tasks_table.
    - now rewrite GET_task_table.
    - destruct (PUT_task_table task_id task db) as [->|[old [title [_ [_ ->]]]]];
        [reflexivity|].
      now apply find_map_other.
    - rewrite DELETE_task_table. now apply find_filter_other. }
  split; [exact Hfind|]. rewrite !GET_task_run. simpl. now rewrite Hfind.
Qed.

Lemma other_tasks_untouched_witness :
  2 <> 1 /\
  (find (has_id 2) (fst (serve (Delete 1) two_tasks)) = find (has_id 2) two_tasks /\
   snd (GET_task 2 (fst (serve (Delete 1) two_tasks))) = snd (GET_task 2 two_tasks)).
Proof.
  assert (H : 2 <> 1) by lia.
  split; [exact H | exact (other_tasks_untouched (Delete 1) two_tasks 2 H)].
Defined.

(** ** Delete composed with itself and with create *)

(** X4: a second delete of the same id, a signed 64-bit integer, is always
    answered 404 and changes nothing, whether or not the first one found a
    row. *)
Theorem delete_twice (db : Table) (task_id : Z) :
  is_int64 task_id = true ->
  DELETE_task task_id (fst (DELETE_task task_id db)) =
  (fst (DELETE_task task_id db), response_404).
Proof.
  intros Hrange. rewrite DELETE_task_table.
  rewrite (DELETE_task_run_missing _ _ (find_deleted task_id db)).
  unfold response_of_missing. now rewrite Hrange.
Qed.

Lemma delete_twice_witness :
  is_int64 1 = true /\
  DELETE_task 1 (fst (DELETE_task 1 two_tasks)) =
  (fst (DELETE_task 1 two_tasks), response_404).
Proof.
  assert (R : is_int64 1 = true) by reflexivity.
  split; [exact R | exact (delete_twice two_tasks 1 R)].
Defined.




(** ** The order of ids *)

Lemma StronglySorted_snoc_Z (l : list Z) (x : Z) :
  StronglySorted Z.lt l -> Forall (fun y => y < x) l -> StronglySorted Z.lt (l ++ [x]).
Proof.
  induction 1 as [|y l Hs IH Hy]; simpl; intros Hx.
  - constructor; constructor.
  - inversion Hx as [|? ? Hyx Hlx]; subst. constructor; [now apply IH|].
    apply Forall_app. split; [exact Hy | now constructor].
Qed.

Lemma StronglySorted_filter_Z (f : Z -> bool) (l : list Z) :
  StronglySorted Z.lt l -> StronglySorted Z.lt (filter f l).
Proof.
  induction 1 as [|y l Hs IH Hy]; simpl; [constructor|].
  destruct (f y); [|exact IH]. constructor; [exact IH|].
  apply Forall_forall. intros z Hz. apply filter_In in Hz.
  rewrite Forall_forall in Hy. now apply Hy.
Qed.

Lemma next_rowid_positive (db : Table) :
  Forall (fun i => 0 < i) (ids db) -> 0 < next_rowid db.
Proof.
  destruct db as [|r rows]; simpl; [lia|]. intros H.
  inversion H as [|? ? Hr _]; subst.
  pose proof (max_rowid_lower rows (Row.id r)). lia.
Qed.

(** X7: in every reachable table the ids are positive and strictly ascending in
    table order, so that a list returns the tasks by ascending id, the most
    recently created last. *)
Theorem reachable_ids_ascending (db : Table) :
  reachable db ->
  StronglySorted Z.lt (ids db) /\ Forall (fun i => 0 < i) (ids db).
Proof.
  induction 1 as [|req db Hreach [IHs IHp]]; [split; constructor|].
  rewrite serve_ids. destruct req; try (split; assumption).
  - split.
    + apply StronglySorted_snoc_Z; [exact IHs|].
      apply Forall_forall. intros y Hy. unfold ids in Hy. apply in_map_iff in Hy.
      destruct Hy as [r [<- Hr]]. now apply next_rowid_above.
    + apply Forall_app. split; [exact IHp|].
      constructor; [now apply next_rowid_positive | constructor].
  - split; [now apply StronglySorted_filter_Z|].
    apply Forall_forall. intros z Hz. apply filter_In in Hz.
    rewrite Forall_forall in IHp. now apply IHp.
Qed.

Lemma reachable_ids_ascending_witness :
  reachable one_task /\
  (StronglySorted Z.lt (ids one_task) /\ Forall (fun i => 0 < i) (ids one_task)).
Proof.
  assert (H : reachable one_task) by (apply reachable_serve, reachable_init).
  split; [exact H | exact (reachable_ids_ascending one_task H)].
Defined.

(** ** Pages *)

Lemma read_tasks_run (skip lim : Z) (db : Table) :
  is_int64 skip = true -> is_int64 lim = true ->
  read_tasks skip lim db = (db, Return (map load (page skip lim db))).
Proof. exact (read_tasks_in_range skip lim db). Qed.

Lemma page_nonneg (skip lim : Z) (db : Table) :
  0 <= lim -> page skip lim db = firstn (Z.to_nat lim) (skipn (Z.to_nat skip) db).
Proof.
  intros Hlim. unfold page, limit, offset.
  destruct (lim <? 0) eqn:E; [apply Z.ltb_lt in E; lia | reflexivity].
Qed.

Lemma firstn_plus {A : Type} (n m : nat) (l : list A) :
  firstn (n + m) l = firstn n l ++ firstn m (skipn n l).
Proof.
  revert l. induction n as [|n IH]; intros l; simpl; [reflexivity|].
  destruct l as [|x l]; simpl.
  - now rewrite firstn_nil.
  - now rewrite IH.
Qed.

(** The table splits around a page, for any integers [skip] and [limit]:
    nothing is skipped when [skip] is not positive, nothing is cut off when
    [limit] is negative. *)
Lemma page_split (skip lim : Z) (db : Table) :
  exists before after,
    db = before ++ page skip lim db ++ after /\
    (skip <= 0 -> before = []) /\ (lim < 0 -> after = []).
Proof.
  unfold page, limit, offset.
  exists (firstn (Z.to_nat skip) db).
  destruct (lim <? 0) eqn:E.
  - exists []. rewrite app_nil_r, firstn_skipn. repeat split.
    intros Hs. replace (Z.to_nat skip) with 0%nat by lia. reflexivity.
  - exists (skipn (Z.to_nat lim) (skipn (Z.to_nat skip) db)).
    rewrite !firstn_skipn. repeat split.
    + intros Hs. replace (Z.to_nat skip) with 0%nat by lia. reflexivity.
    + apply Z.ltb_ge in E. lia.
Qed.

Lemma page_incl (skip lim : Z) (db : Table) (r : Row.t) :
  In r (page skip lim db) -> In r db.
Proof.
  intros Hin. destruct (page_split skip lim db) as [before [after [Hdb _]]].
  rewrite Hdb. apply in_or_app. right. apply in_or_app. now left.
Qed.

(** X8: for any signed 64-bit integers [skip] and [limit], negative ones
    included, a list returns a contiguous run of the table, in table order:
    it starts at the first row when [skip] is zero or negative and runs to
    the last row when [limit] is negative. *)
Theorem list_is_contiguous (skip lim : Z) (db : Table) :
  is_int64 skip = true -> is_int64 lim = true ->
  exists before after,
    db = before ++ page skip lim db ++ after /\
    read_tasks skip lim db = (db, Return (map load (page skip lim db))) /\
    (skip <= 0 -> before = []) /\ (lim < 0 -> after = []).
Proof.
  intros Hs Hl.
  destruct (page_split skip lim db) as [before [after [Hdb [Hb Ha]]]].
  exists before, after. repeat split; try assumption.
  now apply read_tasks_run.
Qed.

Lemma list_is_contiguous_witness :
  is_int64 (-1) = true /\ is_int64 (-1) = true /\
  exists before after,
    two_tasks = before ++ page (-1) (-1) two_tasks ++ after /\
    read_tasks (-1) (-1) two_tasks =
      (two_tasks, Return (map load (page (-1) (-1) two_tasks))) /\
    (-1 <= 0 -> before = []) /\ (-1 < 0 -> after = []).
Proof.
  assert (R : is_int64 (-1) = true) by reflexivity.
  split; [exact R | split; [exact R |]].
  exact (list_is_contiguous (-1) (-1) two_tasks R R).
Defined.

(** X9: two consecutive pages make up the page of their joint size: for
    non-negative numbers within the signed 64-bit range, reading [n] tasks
    from [skip] and then [m] tasks from [skip + n] returns, in order, what
    reading [n + m] tasks from [skip] returns. *)
Theorem consecutive_pages (skip n m : Z) (db : Table) :
  0 <= skip -> 0 <= n -> 0 <= m ->
  skip + n <= INT64_MAX -> n + m <= INT64_MAX ->
  exists p1 p2,
    snd (read_tasks skip n db) = Return p1 /\
    snd (read_tasks (skip + n) m db) = Return p2 /\
    snd (read_tasks skip (n + m) db) = Return (p1 ++ p2).
Proof.
  intros Hs Hn Hm Hsn Hnm.
  rewrite !read_tasks_run by (apply is_int64_nonneg; lia). simpl.
  eexists. eexists. split; [reflexivity|]. split; [reflexivity|].
  rewrite <- map_app. do 2 f_equal.
  rewrite !page_nonneg by lia.
  rewrite !Z2Nat.inj_add by lia. rewrite firstn_plus. f_equal. f_equal.
  rewrite skipn_skipn. f_equal. lia.
Qed.

Lemma consecutive_pages_witness :
  0 <= 0 /\ 0 <= 1 /\ 0 <= 1 /\ 0 + 1 <= INT64_MAX /\ 1 + 1 <= INT64_MAX /\
  exists p1 p2,
    snd (read_tasks 0 1 two_tasks) = Return p1 /\
    snd (read_tasks (0 + 1) 1 two_tasks) = Return p2 /\
    snd (read_tasks 0 (1 + 1) two_tasks) = Return (p1 ++ p2).
Proof.
  assert (H0 : 0 <= 0) by lia. assert (H1 : 0 <= 1) by lia.
  assert (H2 : 0 + 1 <= INT64_MAX) by (unfold INT64_MAX; lia).
  assert (H3 : 1 + 1 <= INT64_MAX) by (unfold INT64_MAX; lia).
  split; [exact H0 | split; [exact H1 | split; [exact H1 |]]].
  split; [exact H2 | split; [exact H3 |]].
  exact (consecutive_pages 0 1 1 two_tasks H0 H1 H1 H2 H3).
Defined.

(** X10: for non-negative [skip] and [limit] within the signed 64-bit range,
    a list returns exactly [limit] tasks unless fewer are left after the
    first [skip], and then it returns those that are left. *)
Theorem page_length (skip lim : Z) (db : Table) :
  0 <= skip <= INT64_MAX -> 0 <= lim <= INT64_MAX ->
  exists p,
    snd (read_tasks skip lim db) = Return p /\
    Z.of_nat (List.length p) = Z.min lim (Z.max 0 (Z.of_nat (List.length db) - skip)).
Proof.
  intros Hs Hl. rewrite read_tasks_run by now apply is_int64_nonneg.
  simpl. eexists. split; [reflexivity|].
  rewrite length_map, page_nonneg by lia.
  rewrite length_firstn, length_skipn. lia.
Qed.

Lemma page_length_witness :
  0 <= 1 <= INT64_MAX /\ 0 <= 5 <= INT64_MAX /\
  exists p,
    snd (read_tasks 1 5 two_tasks) = Return p /\
    Z.of_nat (List.length p) =
    Z.min 5 (Z.max 0 (Z.of_nat (List.length two_tasks) - 1)).
Proof.
  assert (H1 : 0 <= 1 <= INT64_MAX) by (unfold INT64_MAX; lia).
  assert (H5 : 0 <= 5 <= INT64_MAX) by (unfold INT64_MAX; lia).
  split; [exact H1 | split; [exact H5 |]].
  exact (page_length 1 5 two_tasks H1 H5).
Defined.

(** X11: a list whose [skip] is at least the number of rows of the table is
    answered 200 with an empty array, whatever the limit and whatever the
    rows hold, both numbers being signed 64-bit integers. *)
Theorem list_past_the_end (skip lim : Z) (db : Table) :
  Z.of_nat (List.length db) <= skip ->
  is_int64 skip = true -> is_int64 lim = true ->
  GET_tasks skip lim db = (db, mkResponse 200 (JSONTasks [])).
Proof.
  intros Hskip Hs Hl. unfold GET_tasks, route. rewrite (read_tasks_run _ _ _ Hs Hl).
  replace (page skip lim db) with (@nil Row.t); [reflexivity|].
  unfold page, limit, offset.
  rewrite skipn_all2 by lia. destruct (lim <? 0); [reflexivity|].
  now rewrite firstn_nil.
Qed.

Lemma list_past_the_end_witness :
  Z.of_nat (List.length two_tasks) <= 2 /\
  is_int64 2 = true /\ is_int64 (-1) = true /\
  GET_tasks 2 (-1) two_tasks = (two_tasks, mkResponse 200 (JSONTasks [])).
Proof.
  assert (H : Z.of_nat (List.length two_tasks) <= 2) by (simpl; lia).
  assert (R2 : is_int64 2 = true) by reflexivity.
  assert (R1 : is_int64 (-1) = true) by reflexivity.
  split; [exact H | split; [exact R2 | split; [exact R1 |]]].
  exact (list_past_the_end 2 (-1) two_tasks H R2 R1).
Defined.

(** ** Lists of rows that validate *)

Lemma from_attributes_list_loads (rows : Table) :
  (forall r, In r rows -> Row.done r <> None) ->
  exists tasks,
    from_attributes_list (map load rows) = Some tasks /\
    Forall2 shows rows tasks.
Proof.
  induction rows as [|r rows IH]; simpl; intros Hdone.
  - exists []. split; [reflexivity | constructor].
  - destruct IH as [tasks [Htasks Hshows]]; [intros x Hx; apply Hdone; now right|].
    rewrite Htasks. unfold from_attributes, load. simpl.
    destruct (Row.done r) as [b|] eqn:Hb.
    + eexists. split; [reflexivity|]. constructor; [|exact Hshows].
      unfold shows. simpl. now rewrite Hb.
    + exfalso. apply (Hdone r); [now left | exact Hb].
Qed.

Lemma GET_tasks_defined (skip lim : Z) (db : Table) :
  done_defined db ->
  is_int64 skip = true -> is_int64 lim = true ->
  exists tasks,
    GET_tasks skip lim db = (db, mkResponse 200 (JSONTasks tasks)) /\
    Forall2 shows (page skip lim db) tasks.
Proof.
  intros Hdb Hs Hl.
  destruct (from_attributes_list_loads (page skip lim db)) as [tasks [Htasks Hshows]].
  { intros r Hr. apply Hdb. now apply page_incl in Hr. }
  exists tasks. split; [|exact Hshows].
  unfold GET_tasks, route. rewrite (read_tasks_run _ _ _ Hs Hl). unfold tasks_model.
  now rewrite Htasks.
Qed.

(** X12: a list without query parameters never returns more than 100 tasks:
    on a table whose every [done] is defined it is answered 200 with one
    record for each of the first 100 rows of the table, in table order, all
    rows when there are fewer; each record has the id, title, description
    and done of its row. *)
Theorem list_defaults (db : Table) :
  done_defined db ->
  exists tasks,
    GET_tasks_query None None db = (db, mkResponse 200 (JSONTasks tasks)) /\
    Forall2 shows (firstn 100 db) tasks.
Proof.
  intros Hdb. unfold GET_tasks_query.
  destruct (GET_tasks_defined 0 100 db Hdb eq_refl eq_refl) as [tasks [Hrun Hshows]].
  exists tasks. split; [exact Hrun|].
  now rewrite page_nonneg in Hshows by lia.
Qed.

Lemma two_tasks_done_defined : done_defined two_tasks.
Proof. intros r [<-|[<-|[]]]; discriminate. Qed.

Lemma list_defaults_witness :
  done_defined two_tasks /\
  exists tasks,
    GET_tasks_query None None two_tasks =
      (two_tasks, mkResponse 200 (JSONTasks tasks)) /\
    Forall2 shows (firstn 100 two_tasks) tasks.
Proof.
  split; [exact two_tasks_done_defined |
          exact (list_defaults two_tasks two_tasks_done_defined)].
Defined.

(** ** Where a 500 comes from *)








Lemma update_null_title_rejected_witness :
  find (has_id 1) two_tasks = Some milk /\
  TaskUpdate.title title_null = Some None /\
  PUT_task 1 title_null two_tasks = (two_tasks, mkResponse 500 InternalServerError).
Proof.
  assert (H1 : find (has_id 1) two_tasks = Some milk) by reflexivity.
  assert (H2 : TaskUpdate.title title_null = Some None) by reflexivity.
  split; [exact H1 | split; [exact H2 |]].
  exact (update_null_title_rejected two_tasks 1 title_null milk H1 H2).
Defined.

Lemma update_empty_on_defined_done_witness :
  find (has_id 2) two_tasks = Some dog /\
  Row.done dog = Some true /\
  (snd (PUT_task 2 TaskUpdate.empty two_tasks) =
     mkResponse 200
       (JSONTask (TaskInDB.mk (Row.title dog) (Row.description dog) true (Row.id dog))) /\
   find (has_id 2) (fst (PUT_task 2 TaskUpdate.empty two_tasks)) = Some dog /\
   (NoDup (ids two_tasks) -> fst (PUT_task 2 TaskUpdate.empty two_tasks) = two_tasks)).
Proof.
  assert (H1 : find (has_id 2) two_tasks = Some dog) by reflexivity.
  assert (H2 : Row.done dog = Some true) by reflexivity.
  split; [exact H1 | split; [exact H2 |]].
  exact (update_empty_on_defined_done two_tasks 2 dog true H1 H2).
Defined.

Lemma done_defined_preserved_witness :
  done_defined two_tasks /\
  (forall task_id task,
      Update 2 done_false = Update task_id task -> TaskUpdate.done task <> Some None) /\
  done_defined (fst (serve (Update 2 done_false) two_tasks)).
Proof.
  assert (H : forall task_id task,
             Update 2 done_false = Update task_id task ->
             TaskUpdate.done task <> Some None)
    by (intros task_id task [= _ <-]; discriminate).
  split; [exact two_tasks_done_defined | split; [exact H |]].
  exact (done_defined_preserved (Update 2 done_false) two_tasks
           two_tasks_done_defined H).
Defined.

(** ** Update and create, once more *)

Lemma update_rows_twice (i : Z) (new : Row.t) (db : Table) :
  Row.id new = i ->
  map (fun x => if has_id i x then new else x)
      (map (fun x => if has_id i x then new else x) db) =
  map (fun x => if has_id i x then new else x) db.
Proof.
  intros Hid. rewrite map_map. apply map_ext. intros x.
  destruct (has_id i x) eqn:E; [|now rewrite E].
  replace (has_id i new) with true; [reflexivity|].
  symmetry. now apply has_id_true.
Qed.

(** X18: the update route is idempotent: sending the same update of the same id
    a second time leaves the table of the first and is answered as the
    first was, be that 200, 404 or 500. *)
Theorem update_idempotent (db : Table) (task_id : Z) (task : TaskUpdate.t) :
  PUT_task task_id task (fst (PUT_task task_id task db)) = PUT_task task_id task db.
Proof.
  destruct (find (has_id task_id) db) as [old|] eqn:Hfind.
  - pose proof (find_has_id _ _ _ Hfind) as [_ Hid].
    pose proof (PUT_task_run task_id task db old Hfind) as Hfirst.
    destruct (Task.title (overwritten task old)) as [title|] eqn:Ht.
    + cbv zeta in Hfirst.
      set (new := Row.mk task_id title (Task.description (overwritten task old))
                         (Task.done (overwritten task old))) in *.
      assert (Hnew : find (has_id task_id)
                (map (fun x => if has_id task_id x then new else x) db) = Some new)
        by now apply find_updated with (old := old).
      assert (Hsame : overwritten task new = overwritten task old).
      { unfold overwritten in *. simpl in *. rewrite Hid.
        destruct (TaskUpdate.title task) as [v|], (TaskUpdate.description task),
          (TaskUpdate.done task); simpl in *;
          try injection Ht as <-; reflexivity. }
      rewrite Hfirst. cbn [fst].
      rewrite (PUT_task_run task_id task _ new Hnew), Hsame, Ht. cbv zeta. fold new.
      now rewrite (update_rows_twice task_id new db eq_refl).
    + rewrite Hfirst. cbn [fst]. exact Hfirst.
  - rewrite (PUT_task_run_missing task_id task db Hfind). cbn [fst].
    apply (PUT_task_run_missing task_id task db Hfind).
Qed.


(** ** Sessions *)




(** ** Integers out of range *)

(** X21: on a table whose ids are signed 64-bit integers, a get, update,
    delete or list that carries an integer outside that range is answered
    500 and leaves the table as it was. *)
Theorem out_of_range_is_500 (req : Request) (db : Table) :
  Forall (fun i => is_int64 i = true) (ids db) ->
  out_of_range req = true ->
  serve req db = (db, mkResponse 500 InternalServerError).
Proof.
  intros Hdb Hout.
  assert (Hnone : forall i, is_int64 i = false -> find (has_id i) db = None).
  { intros i Hi. apply find_absent. intros Hin.
    rewrite Forall_forall in Hdb. apply Hdb in Hin. congruence. }
  destruct req as [task|skip lim|task_id|task_id task|task_id]; simpl in *;
    try discriminate Hout; apply negb_true_iff in Hout.
  - unfold GET_tasks, route. now rewrite (read_tasks_overflow _ _ _ Hout).
  - rewrite GET_task_run, (Hnone _ Hout). unfold response_of_missing.
    now rewrite Hout.
  - rewrite (PUT_task_run_missing _ _ _ (Hnone _ Hout)). unfold response_of_missing.
    now rewrite Hout.
  - rewrite (DELETE_task_run_missing _ _ (Hnone _ Hout)). unfold response_of_missing.
    now rewrite Hout.
Qed.

Lemma out_of_range_is_500_witness :
  Forall (fun i => is_int64 i = true) (ids two_tasks) /\
  out_of_range (Delete (INT64_MAX + 1)) = true /\
  serve (Delete (INT64_MAX + 1)) two_tasks =
    (two_tasks, mkResponse 500 InternalServerError).
Proof.
  assert (H : Forall (fun i => is_int64 i = true) (ids two_tasks))
    by (repeat constructor).
  assert (R : out_of_range (Delete (INT64_MAX + 1)) = true) by reflexivity.
  split; [exact H | split; [exact R |]].
  exact (out_of_range_is_500 (Delete (INT64_MAX + 1)) two_tasks H R).
Defined.
